(** * Watermarker: a shallow embedding of [index.js]

    The program is a command-line driver: it validates its options, lists the
    images of a directory and, for each of them, builds an overlay (rendered
    text or a resized image), computes where to put it and composites it.

    Conventions of the embedding.
    - A JavaScript number is an exact rational ([Q]).  Pixel dimensions are
      integers, so the placement arithmetic ([-], [/ 2]) is exact on doubles
      as well; the text-sizing constants (0.6, 1.2, ...) are taken at their
      decimal value.  [NaN] and the infinities are outside the model: they
      arise only from a scale that does not parse as a number, or from an
      empty text, which the driver never hands to the text builder.
    - A JavaScript string is a [string] whose characters are code units in
      the range U+0000..U+00FF, so [String.length] is [.length].
    - Everything outside the program (file system, glob, sharp, console,
      process) is an oracle that may answer differently at every call: it
      reads the trace of the effects performed so far. *)

From Stdlib Require Import QArith Qround Qminmax ZArith String Ascii List Lia.
Import ListNotations.

Local Open Scope string_scope.
Local Open Scope list_scope.
Local Open Scope Q_scope.

(** ** JavaScript built-ins used by the program *)

Module JS.

(** [String.prototype.toLowerCase] on one code unit below U+0100:
    A-Z and the Latin-1 capitals (all of U+00C0..U+00DE but the
    multiplication sign U+00D7) move up by 32. *)
Definition toLowerCase_unit (c : ascii) : ascii :=
  let n := N_of_ascii c in
  if ((65 <=? n) && (n <=? 90) ||
      (192 <=? n) && (n <=? 222) && negb (n =? 215))%N
  then ascii_of_N (n + 32) else c.

Fixpoint toLowerCase (s : string) : string :=
  match s with
  | EmptyString => EmptyString
  | String c rest => String (toLowerCase_unit c) (toLowerCase rest)
  end.

(** Truthiness of an optional string option of the command line:
    [undefined] and the empty string are falsy. *)
Definition truthy (o : option string) : bool :=
  match o with
  | Some s => negb (s =? "")%string
  | None => false
  end.

(** Truthiness of a number that may be [undefined]: 0 is falsy. *)
Definition truthy_num (o : option Z) : bool :=
  match o with
  | Some n => negb (n =? 0)%Z
  | None => false
  end.

Definition Math_floor (x : Q) : Q := inject_Z (Qfloor x).
Definition Math_round (x : Q) : Z := Qfloor (x + (1 # 2)).
Definition Math_min : Q -> Q -> Q := Qmin.
Definition Math_max : Q -> Q -> Q := Qmax.

(** [s.length] as a number. *)
Definition length (s : string) : Q := inject_Z (Z.of_nat (String.length s)).

End JS.

Import JS.

(** ** Placement (index.js, [getPositionCoordinates]) *)

Record Coordinates : Type := mkCoordinates { left : Q; top : Q }.

Definition padding : Q := 10.

Definition getPositionCoordinates
    (position : string) (imageWidth imageHeight watermarkWidth watermarkHeight : Q)
    : Coordinates :=
  let p := toLowerCase position in
  if (p =? "topleft")%string then
    {| left := padding; top := padding |}
  else if (p =? "topright")%string then
    {| left := imageWidth - watermarkWidth - padding; top := padding |}
  else if (p =? "bottomleft")%string then
    {| left := padding; top := imageHeight - watermarkHeight - padding |}
  else if (p =? "bottomright")%string then
    {| left := imageWidth - watermarkWidth - padding;
       top := imageHeight - watermarkHeight - padding |}
  else
    (* case 'center' and default share one body *)
    {| left := (imageWidth - watermarkWidth) / 2;
       top := (imageHeight - watermarkHeight) / 2 |}.

(** Distance between the overlay and each edge of the base image, for an
    overlay of the given size placed at [c]. *)
Definition gapLeft (c : Coordinates) : Q := left c.
Definition gapTop (c : Coordinates) : Q := top c.
Definition gapRight (imageWidth watermarkWidth : Q) (c : Coordinates) : Q :=
  imageWidth - (left c + watermarkWidth).
Definition gapBottom (imageHeight watermarkHeight : Q) (c : Coordinates) : Q :=
  imageHeight - (top c + watermarkHeight).

(** ** Text sizing (index.js, [createTextWatermark], lines 73-103) *)

Record TextLayout : Type := mkTextLayout {
  watermarkWidth : Q;   (* line 78 *)
  watermarkHeight : Q;  (* line 80 *)
  fontSize : Q;         (* its value after line 97 *)
  svgWidth : Q;         (* line 101 *)
  svgHeight : Q         (* line 103 *)
}.

Definition textLayout (text : string) (width height : Q) : TextLayout :=
  let textLength := JS.length text in
  let watermarkWidth := Math_max 50 width in
  let watermarkHeight := Math_max 50 (height * 0.6) in
  let fontSize := Math_floor (Math_min (watermarkWidth / 5) (watermarkHeight / 1.2)) in
  let fontSize :=
    if (8 <? String.length text)%nat then
      let textScaleFactor := Math_min 1 (8 / textLength) in
      Math_floor (fontSize * textScaleFactor * 1.5)
    else fontSize in
  let maxFontSize :=
    Math_min (watermarkWidth / (textLength * 0.6)) (watermarkHeight * 0.9) in
  let fontSize := Math_min fontSize maxFontSize in
  let fontSize := Math_max 12 fontSize in
  let svgWidth := Math_max watermarkWidth (fontSize * textLength * 0.7) in
  let svgHeight := Math_max (Math_min watermarkHeight (fontSize * 1.3)) (fontSize * 1.2) in
  {| watermarkWidth := watermarkWidth; watermarkHeight := watermarkHeight;
     fontSize := fontSize; svgWidth := svgWidth; svgHeight := svgHeight |}.

(** The sizing rule as the specification words it, over a target box. *)
Module Spec.





End Spec.


(** ** The run configuration (commander's [program.opts()])

    [options_scale] and [options_opacity] hold the numbers that
    [parseFloat(options.scale)] and [parseFloat(options.opacity)] return. *)

Record Options : Type := mkOptions {
  options_input : string;
  options_output : string;
  options_watermark : option string;
  options_text : option string;
  options_position : string;
  options_opacity : Q;
  options_scale : Q;
  options_filter : string
}.

(** ** Values exchanged with the outside world *)

Definition Buffer : Type := list Byte.byte.

Record Stats : Type := mkStats { isFile : bool; size : Z }.

(** What [sharp(file).metadata()] resolves to: either dimension may be
    [undefined]. *)
Record ImageMetadata : Type := mkImageMetadata {
  metadata_width : option Z;
  metadata_height : option Z
}.

(** The SVG document of lines 107-120: the interpolated values. *)
Record Svg : Type := mkSvg {
  svg_width : Z;
  svg_height : Z;
  svg_fontSize : Q;
  svg_text : string
}.

(** Console messages, one constructor per call site (the line is given). *)
Inductive Message : Type :=
| MsgInputMissing (input : string)                            (* 28 *)
| MsgNoWatermark                                              (* 37 *)
| MsgTextInfo (text : string) (textLength : nat) (fontSize : Q)
              (svgW svgH : Z)                                 (* 105 *)
| MsgSvgError (message : string)                              (* 130 *)
| MsgSvgContent (svg : Svg)                                   (* 131 *)
| MsgProcessing (filename : string)                           (* 142 *)
| MsgCannotAccess (inputFile message : string)                (* 148 *)
| MsgNotAFile (inputFile : string)                            (* 155 *)
| MsgEmpty (inputFile : string)                               (* 160 *)
| MsgMetadataError (filename message : string)                (* 169 *)
| MsgInvalidDimensions (filename : string)                    (* 174 *)
| MsgDimensions (imageWidth imageHeight : Z)                  (* 179 *)
| MsgTextWatermarkError (message : string)                    (* 192 *)
| MsgWatermarkImageError (message : string)                   (* 206 *)
| MsgWatermarkMetadataError (message : string)                (* 216 *)
| MsgSuccess (filename : string)                              (* 241 *)
| MsgApplyError (filename message : string)                   (* 243 *)
| MsgProcessError (filename message : string)                 (* 246 *)
| MsgSearching (input : string)                               (* 253 *)
| MsgOutputDir (output : string)                              (* 254 *)
| MsgNoImages                                                 (* 259 *)
| MsgFound (n : nat)                                          (* 263 *)
| MsgDone (n : nat)                                           (* 270 *)
| MsgFatal (message : string).                                (* 272 *)

(** The effects of the program, in the order it performs them. *)
Inductive Event : Type :=
| ConsoleLog (m : Message)
| ConsoleError (m : Message)
| ExistsSync (path : string)                    (* fs.existsSync *)
| EnsureDirSync (path : string)                 (* fs.ensureDirSync *)
| Glob (pattern cwd : string)                   (* glob(pattern, {cwd, absolute}) *)
| Access (path : string)                        (* fs.access(path, R_OK) *)
| Stat (path : string)                          (* fs.stat *)
| Metadata (file : string)                      (* sharp(file).metadata() *)
| RenderSvg (svg : Svg)                         (* sharp(Buffer.from(svg)).png().toBuffer() *)
| ResizeWatermark (file : option string) (width : Z)
    (* sharp(options.watermark).resize({width, fit: 'inside'}).ensureAlpha().toBuffer() *)
| BufferMetadata (overlay : Buffer)             (* sharp(buffer).metadata() *)
| CompositeToFile (inputFile : string) (overlay : Buffer) (left top : Z)
                  (opacity : Q) (outputFile : string).
    (* sharp(inputFile).composite([{input, left, top, blend: 'over', opacity}]).toFile(outputFile) *)

Definition Trace : Type := list Event.

(** An answer of the outside world: a value, or an error with its message. *)
Inductive Result (A : Type) : Type :=
| Success (a : A)
| Failure (message : string).
Arguments Success {A} a.
Arguments Failure {A} message.

(** The outside world.  Every answer may depend on all that happened
    before the call.  The metadata of a buffer that sharp produced itself
    always carries both dimensions. *)
Record World : Type := mkWorld {
  path_basename : string -> string;
  path_join : string -> string -> string;
  fs_existsSync : Trace -> string -> bool;
  fs_ensureDirSync : Trace -> string -> Result unit;
  glob : Trace -> string -> string -> Result (list string);
  fs_access : Trace -> string -> Result unit;
  fs_stat : Trace -> string -> Result Stats;
  sharp_metadata : Trace -> string -> Result ImageMetadata;
  sharp_renderSvg : Trace -> Svg -> Result Buffer;
  sharp_resizeWatermark : Trace -> option string -> Z -> Result Buffer;
  sharp_bufferMetadata : Trace -> Buffer -> Result (Z * Z);
  sharp_compositeToFile :
    Trace -> string -> Buffer -> Z -> Z -> Q -> string -> Result unit
}.

(** ** The effect monad: a trace, exceptions and [process.exit] *)

Inductive Outcome (A : Type) : Type :=
| Return (a : A)
| Throw (message : string)      (* an exception on its way up *)
| Exit (code : Z).              (* process.exit(code): nothing runs after it *)
Arguments Return {A} a.
Arguments Throw {A} message.
Arguments Exit {A} code.

Definition M (A : Type) : Type := Trace -> Outcome A * Trace.

Definition ret {A} (a : A) : M A := fun tr => (Return a, tr).

Definition bind {A B} (m : M A) (k : A -> M B) : M B :=
  fun tr =>
    match m tr with
    | (Return a, tr') => k a tr'
    | (Throw message, tr') => (Throw message, tr')
    | (Exit code, tr') => (Exit code, tr')
    end.

Declare Scope js_scope.
Delimit Scope js_scope with js.
Notation "x <- m ;; k" := (bind m (fun x => k))
  (at level 100, m at next level, right associativity) : js_scope.
Notation "m ;; k" := (bind m (fun _ => k))
  (at level 100, right associativity) : js_scope.

Definition emit (e : Event) : M unit := fun tr => (Return tt, tr ++ [e]).

Definition throw {A} (message : string) : M A := fun tr => (Throw message, tr).

Definition exit {A} (code : Z) : M A := fun tr => (Exit code, tr).

(** A call that cannot fail: the world answers from the trace so far. *)
Definition ask {A} (e : Event) (answer : Trace -> A) : M A :=
  fun tr => (Return (answer tr), tr ++ [e]).

(** A call that may throw (or reject, under [await]). *)
Definition perform {A} (e : Event) (answer : Trace -> Result A) : M A :=
  fun tr =>
    match answer tr with
    | Success a => (Return a, tr ++ [e])
    | Failure message => (Throw message, tr ++ [e])
    end.

(** [try { body } catch (err) { handler(err.message) }]. *)
Definition tryCatch {A} (body : M A) (handler : string -> M A) : M A :=
  fun tr =>
    match body tr with
    | (Throw message, tr') => handler message tr'
    | r => r
    end.

(** [for (const x of xs) { await body(x) }]. *)
Fixpoint forOf {A} (xs : list A) (body : A -> M unit) : M unit :=
  match xs with
  | [] => ret tt
  | x :: rest => bind (body x) (fun _ => forOf rest body)
  end.

Definition console_log (m : Message) : M unit := emit (ConsoleLog m).
Definition console_error (m : Message) : M unit := emit (ConsoleError m).

(** The exit status the operating system sees: an exception nobody caught
    ends a Node process with status 1. *)
Definition exitCode (r : Outcome unit) : Z :=
  match r with
  | Return _ => 0
  | Throw _ => 1
  | Exit code => code
  end.

(** ** The program *)

Local Open Scope js_scope.

Section Program.

Variable w : World.
Variable options : Options.

(** Lines 182-183 of [processImage]. *)
Definition watermarkMaxWidth (imageWidth : Z) : Q :=
  Math_max 50 (inject_Z imageWidth * options_scale options).

Definition watermarkMaxHeight (imageHeight : Z) : Q :=
  Math_max 50 (inject_Z imageHeight * options_scale options).

(** Lines 107-120: the SVG document for a layout. *)
Definition svgOf (text : string) (layout : TextLayout) : Svg :=
  {| svg_width := Math_round (svgWidth layout);
     svg_height := Math_round (svgHeight layout);
     svg_fontSize := fontSize layout;
     svg_text := text |}.

(** [createTextWatermark] (lines 71-134).  Reading [.length] of an
    [undefined] text throws before anything else happens. *)
Definition createTextWatermark (width height : Q) : M Buffer :=
  match options_text options with
  | None => throw "TypeError: Cannot read properties of undefined"
  | Some text =>
      let layout := textLayout text width height in
      let svgText := svgOf text layout in
      console_log (MsgTextInfo text (String.length text) (fontSize layout)
                     (svg_width svgText) (svg_height svgText)) ;;
      tryCatch
        (perform (RenderSvg svgText) (fun tr => sharp_renderSvg w tr svgText))
        (fun message =>
           console_error (MsgSvgError message) ;;
           console_log (MsgSvgContent svgText) ;;
           throw message)
  end.

(** Lines 185-209 of [processImage]: the overlay, or [None] when the
    error was logged and [processImage] returns. *)
Definition buildWatermark (maxWidth maxHeight : Q) : M (option Buffer) :=
  if truthy (options_text options) then
    tryCatch
      (watermarkBuffer <- createTextWatermark maxWidth maxHeight ;;
       ret (Some watermarkBuffer))
      (fun message => console_error (MsgTextWatermarkError message) ;; ret None)
  else
    tryCatch
      (watermarkBuffer <-
         perform (ResizeWatermark (options_watermark options) (Qfloor maxWidth))
           (fun tr => sharp_resizeWatermark w tr (options_watermark options)
                        (Qfloor maxWidth)) ;;
       ret (Some watermarkBuffer))
      (fun message => console_error (MsgWatermarkImageError message) ;; ret None).

(** Lines 181-244 of [processImage]: what happens to a file once its
    dimensions are known. *)
Definition watermarkImage
    (inputFile filename outputFile : string) (imageWidth imageHeight : Z) : M unit :=
  built <- buildWatermark (watermarkMaxWidth imageWidth)
             (watermarkMaxHeight imageHeight) ;;
  match built with
  | None => ret tt
  | Some watermarkBuffer =>
      watermarkMetadata <-
        tryCatch
          (md <- perform (BufferMetadata watermarkBuffer)
                   (fun tr => sharp_bufferMetadata w tr watermarkBuffer) ;;
           ret (Some md))
          (fun message =>
             console_error (MsgWatermarkMetadataError message) ;; ret None) ;;
      match watermarkMetadata with
      | None => ret tt
      | Some (overlayWidth, overlayHeight) =>
          let position :=
            getPositionCoordinates (options_position options)
              (inject_Z imageWidth) (inject_Z imageHeight)
              (inject_Z overlayWidth) (inject_Z overlayHeight) in
          tryCatch
            (perform
               (CompositeToFile inputFile watermarkBuffer
                  (Qfloor (left position)) (Qfloor (top position))
                  (options_opacity options) outputFile)
               (fun tr =>
                  sharp_compositeToFile w tr inputFile watermarkBuffer
                    (Qfloor (left position)) (Qfloor (top position))
                    (options_opacity options) outputFile) ;;
             console_log (MsgSuccess filename))
            (fun message => console_error (MsgApplyError filename message))
      end
  end.

Definition valueOf (n : option Z) : Z :=
  match n with Some z => z | None => 0%Z end.

(** [processImage] (lines 137-248). *)
Definition processImage (inputFile : string) : M unit :=
  tryCatch
    (let filename := path_basename w inputFile in
     let outputFile := path_join w (options_output options) filename in
     console_log (MsgProcessing filename) ;;
     accessible <-
       tryCatch
         (perform (Access inputFile) (fun tr => fs_access w tr inputFile) ;;
          ret true)
         (fun message =>
            console_error (MsgCannotAccess inputFile message) ;; ret false) ;;
     if negb accessible then ret tt else
     stats <- perform (Stat inputFile) (fun tr => fs_stat w tr inputFile) ;;
     if negb (isFile stats) then console_error (MsgNotAFile inputFile)
     else if (size stats =? 0)%Z then console_error (MsgEmpty inputFile)
     else
       imageMetadata <-
         tryCatch
           (md <- perform (Metadata inputFile)
                    (fun tr => sharp_metadata w tr inputFile) ;;
            ret (Some md))
           (fun message =>
              console_error (MsgMetadataError filename message) ;; ret None) ;;
       match imageMetadata with
       | None => ret tt
       | Some md =>
           if negb (truthy_num (metadata_width md))
              || negb (truthy_num (metadata_height md))
           then console_error (MsgInvalidDimensions filename)
           else
             let imageWidth := valueOf (metadata_width md) in
             let imageHeight := valueOf (metadata_height md) in
             console_log (MsgDimensions imageWidth imageHeight) ;;
             watermarkImage inputFile filename outputFile imageWidth imageHeight
       end)
    (fun message =>
       console_error (MsgProcessError (path_basename w inputFile) message)).

(** [findImages] (lines 61-68). *)
Definition findImages : M (list string) :=
  tryCatch
    (perform (Glob (options_filter options) (options_input options))
       (fun tr => glob w tr (options_filter options) (options_input options)))
    (fun message => throw message).

(** [main] (lines 251-275). *)
Definition main : M unit :=
  tryCatch
    (console_log (MsgSearching (options_input options)) ;;
     console_log (MsgOutputDir (options_output options)) ;;
     images <- findImages ;;
     if (List.length images =? 0)%nat then console_log MsgNoImages
     else
       console_log (MsgFound (List.length images)) ;;
       forOf images processImage ;;
       console_log (MsgDone (List.length images)))
    (fun message => console_error (MsgFatal message) ;; exit 1%Z).

(** The module body (lines 24-39 and 277), after commander has parsed the
    command line into [options]. *)
Definition program : M unit :=
  inputExists <-
    ask (ExistsSync (options_input options))
      (fun tr => fs_existsSync w tr (options_input options)) ;;
  (if negb inputExists
   then console_error (MsgInputMissing (options_input options)) ;; exit 1%Z
   else ret tt) ;;
  perform (EnsureDirSync (options_output options))
    (fun tr => fs_ensureDirSync w tr (options_output options)) ;;
  (if negb (truthy (options_watermark options)) && negb (truthy (options_text options))
   then console_error MsgNoWatermark ;; exit 1%Z
   else ret tt) ;;
  main.

(** A whole run, from an empty trace. *)
Definition run : Outcome unit * Trace := program [].

End Program.

(** ** Reading a trace *)

Definition isError (e : Event) : bool :=
  match e with ConsoleError _ => true | _ => false end.

Definition isSuccess (e : Event) : bool :=
  match e with ConsoleLog (MsgSuccess _) => true | _ => false end.

Definition isConsole (e : Event) : bool :=
  match e with ConsoleLog _ | ConsoleError _ => true | _ => false end.

Definition isResize (e : Event) : bool :=
  match e with ResizeWatermark _ _ => true | _ => false end.

Definition isComposite (e : Event) : bool :=
  match e with CompositeToFile _ _ _ _ _ _ => true | _ => false end.

Definition isDecoded (e : Event) : bool :=
  match e with ConsoleLog (MsgDimensions _ _) => true | _ => false end.

Definition isSearching (e : Event) : bool :=
  match e with ConsoleLog (MsgSearching _) => true | _ => false end.

(** Effects of the driver itself (module body and [main]), as opposed to
    those of [processImage]. *)
Definition isDriver (e : Event) : bool :=
  match e with
  | ExistsSync _ | EnsureDirSync _ | Glob _ _ => true
  | ConsoleLog (MsgSearching _) | ConsoleLog (MsgOutputDir _)
  | ConsoleLog MsgNoImages | ConsoleLog (MsgFound _) | ConsoleLog (MsgDone _) => true
  | ConsoleError (MsgInputMissing _) | ConsoleError MsgNoWatermark
  | ConsoleError (MsgFatal _) => true
  | _ => false
  end.

(** Effects that come before [main] is entered. *)
Definition isStartup (e : Event) : bool :=
  match e with
  | ExistsSync _ | EnsureDirSync _ | ConsoleError _ => true
  | _ => false
  end.

Definition count (p : Event -> bool) (tr : Trace) : nat :=
  List.length (List.filter p tr).

(** A file was skipped: an error was logged for it and no success. *)
Definition skipped (seg : Trace) : bool :=
  existsb isError seg && negb (existsb isSuccess seg).

(** A file was written: one composite was asked for, the success line
    was logged and no error. *)
Definition written (seg : Trace) : bool :=
  (count isComposite seg =? 1)%nat
  && existsb isSuccess seg && negb (existsb isError seg).

(** The part of a trace that belongs to one file: it opens with the
    "Processing" line of that file and ends either written or skipped. *)
Definition fileSegment (w : World) (inputFile : string) (seg : Trace) : Prop :=
  exists rest,
    seg = ConsoleLog (MsgProcessing (path_basename w inputFile)) :: rest /\
    (written rest = true \/ skipped rest = true).

(** ** Sample runs: the demonstration of the repository

    Three 500x300 PNG files; the logo is twice as wide as it is high. *)

Fixpoint basenameFrom (s acc : string) : string :=
  match s with
  | EmptyString => acc
  | String c rest =>
      if (c =? "/")%char then basenameFrom rest EmptyString
      else basenameFrom rest (acc ++ String c EmptyString)%string
  end.

Definition basename (s : string) : string := basenameFrom s EmptyString.

(** The size of the overlay built last. *)
Definition lastOverlaySize (tr : Trace) : Z * Z :=
  fold_left
    (fun d e =>
       match e with
       | RenderSvg svg => (svg_width svg, svg_height svg)
       | ResizeWatermark _ width => (width, (width / 2)%Z)
       | _ => d
       end)
    tr (0%Z, 0%Z).

Definition demoImages : list string :=
  ["/demo/images/sample_red.png"; "/demo/images/sample_green.png";
   "/demo/images/sample_blue.png"].

Definition demoWorld : World :=
  {| path_basename := basename;
     path_join := fun dir file => (dir ++ "/" ++ file)%string;
     fs_existsSync := fun _ _ => true;
     fs_ensureDirSync := fun _ _ => Success tt;
     glob := fun _ _ _ => Success demoImages;
     fs_access := fun _ _ => Success tt;
     fs_stat := fun _ _ => Success {| isFile := true; size := 1024 |};
     sharp_metadata := fun _ _ =>
       Success {| metadata_width := Some 500%Z; metadata_height := Some 300%Z |};
     sharp_renderSvg := fun _ _ => Success [Byte.x01];
     sharp_resizeWatermark := fun _ _ _ => Success [Byte.x02];
     sharp_bufferMetadata := fun tr _ => Success (lastOverlaySize tr);
     sharp_compositeToFile := fun _ _ _ _ _ _ _ => Success tt |}.

(** The same directory after the green file was truncated to 0 bytes and
    the blue one corrupted. *)
Definition damagedWorld : World :=
  {| path_basename := basename;
     path_join := fun dir file => (dir ++ "/" ++ file)%string;
     fs_existsSync := fun _ _ => true;
     fs_ensureDirSync := fun _ _ => Success tt;
     glob := fun _ _ _ => Success demoImages;
     fs_access := fun _ _ => Success tt;
     fs_stat := fun _ file =>
       if (file =? "/demo/images/sample_green.png")%string
       then Success {| isFile := true; size := 0 |}
       else Success {| isFile := true; size := 1024 |};
     sharp_metadata := fun _ file =>
       if (file =? "/demo/images/sample_blue.png")%string
       then Failure "Input file contains unsupported image format"
       else Success {| metadata_width := Some 500%Z;
                       metadata_height := Some 300%Z |};
     sharp_renderSvg := fun _ _ => Success [Byte.x01];
     sharp_resizeWatermark := fun _ _ _ => Success [Byte.x02];
     sharp_bufferMetadata := fun tr _ => Success (lastOverlaySize tr);
     sharp_compositeToFile := fun _ _ _ _ _ _ _ => Success tt |}.

(** [-i images -o watermarked/custom -t "CENTER MARK" -p center -a 0.8 -s 0.4] *)
Definition textOptions : Options :=
  {| options_input := "images"; options_output := "watermarked/custom";
     options_watermark := None; options_text := Some "CENTER MARK";
     options_position := "center"; options_opacity := 0.8; options_scale := 0.4;
     options_filter := "*.{jpg,jpeg,png,gif,webp}" |}.

(** [-i images -o watermarked/image -w logo.png -s 0.25] *)
Definition imageOptions : Options :=
  {| options_input := "images"; options_output := "watermarked/image";
     options_watermark := Some "logo.png"; options_text := None;
     options_position := "bottomright"; options_opacity := 0.5;
     options_scale := 0.25;
     options_filter := "*.{jpg,jpeg,png,gif,webp}" |}.

(** [-i images -w logo.png -t "CENTER MARK" -s 0.5] *)
Definition bothOptions : Options :=
  {| options_input := "images"; options_output := "./watermarked";
     options_watermark := Some "logo.png"; options_text := Some "CENTER MARK";
     options_position := "bottomright"; options_opacity := 0.5;
     options_scale := 0.5;
     options_filter := "*.{jpg,jpeg,png,gif,webp}" |}.

(** [-i images] alone. *)
Definition bareOptions : Options :=
  {| options_input := "images"; options_output := "./watermarked";
     options_watermark := None; options_text := None;
     options_position := "bottomright"; options_opacity := 0.5;
     options_scale := 0.2;
     options_filter := "*.{jpg,jpeg,png,gif,webp}" |}.

(** ** Further readings of the source *)


(** The overlay, placed at [c], keeps [margin] pixels to every edge. *)
Definition keepsMargin
    (margin imageWidth imageHeight overlayWidth overlayHeight : Q)
    (c : Coordinates) : Prop :=
  margin <= gapLeft c /\ margin <= gapTop c /\
  margin <= gapRight imageWidth overlayWidth c /\
  margin <= gapBottom imageHeight overlayHeight c.

(** Effects that read, build or write an image. *)
Definition isImageIO (e : Event) : bool :=
  match e with
  | Metadata _ | RenderSvg _ | ResizeWatermark _ _ | BufferMetadata _
  | CompositeToFile _ _ _ _ _ _ => true
  | _ => false
  end.

Definition isRender (e : Event) : bool :=
  match e with RenderSvg _ => true | _ => false end.

(** The demonstration directory again, with the answers that can go wrong
    left open. *)
Definition worldOf
    (inputExists : bool) (ensured : Result unit) (listing : Result (list string))
    (accessed : Result unit) (stats : Result Stats)
    (rendered resized : Result Buffer) (composited : Result unit) : World :=
  {| path_basename := basename;
     path_join := fun dir file => (dir ++ "/" ++ file)%string;
     fs_existsSync := fun _ _ => inputExists;
     fs_ensureDirSync := fun _ _ => ensured;
     glob := fun _ _ _ => listing;
     fs_access := fun _ _ => accessed;
     fs_stat := fun _ _ => stats;
     sharp_metadata := fun _ _ =>
       Success {| metadata_width := Some 500%Z; metadata_height := Some 300%Z |};
     sharp_renderSvg := fun _ _ => rendered;
     sharp_resizeWatermark := fun _ _ _ => resized;
     sharp_bufferMetadata := fun tr _ => Success (lastOverlaySize tr);
     sharp_compositeToFile := fun _ _ _ _ _ _ _ => composited |}.

Definition regularFile : Result Stats := Success {| isFile := true; size := 1024 |}.

(** ** The demonstration script

    The second program of the repository: it makes sure the sample images
    and the logo exist and runs the watermarker three times through
    [execSync].  It has its own effects, so its own trace. *)

Module Demo.

(** The commands handed to [execSync].  The two generators are [node -e]
    scripts, kept by what they interpolate; the runs of the watermarker are
    kept as the command line itself. *)
Inductive Command : Type :=
| CreateSample (r g b : Z) (outputPath : string)
    (* sharp({create: {width: 500, height: 300, channels: 3,
                       background: {r, g, b}}}).png().toFile(outputPath) *)
| CreateLogo (logoPath : string)
    (* the 200x100 SVG logo, .png().toFile(logoPath) *)
| Shell (commandLine : string).

Inductive Message : Type :=
| MsgCreatingSamples                       (* line 20 *)
| MsgCreatingLogo                          (* line 51 *)
| MsgSamplesExist                          (* line 67 *)
| MsgDemo (n : nat)                        (* lines 73, 76, 79 *)
| MsgCompleted                             (* line 82 *)
| MsgCheckOutput (directory : string)      (* line 83 *)
| MsgError (message : string).             (* line 99 *)

Inductive Event : Type :=
| ConsoleLog (m : Message)
| ConsoleError (m : Message)
| EnsureDirSync (path : string)
| ReaddirSync (path : string)
| ExecSync (command : Command).

Definition Trace : Type := list Event.

Record Host : Type := mkHost {
  dirname : string;                        (* __dirname *)
  cwd : string;                            (* process.cwd() *)
  path_join : string -> string -> string;
  fs_ensureDirSync : Trace -> string -> Result unit;
  fs_readdirSync : Trace -> string -> Result (list string);
  execSync : Trace -> Command -> Result unit
}.

Definition M (A : Type) : Type := Trace -> Outcome A * Trace.

Definition ret {A} (a : A) : M A := fun tr => (Return a, tr).

Definition bind {A B} (m : M A) (k : A -> M B) : M B :=
  fun tr =>
    match m tr with
    | (Return a, tr') => k a tr'
    | (Throw message, tr') => (Throw message, tr')
    | (Exit code, tr') => (Exit code, tr')
    end.

Declare Scope demo_scope.
Delimit Scope demo_scope with demo.
Notation "x <- m ;; k" := (bind m (fun x => k))
  (at level 100, m at next level, right associativity) : demo_scope.
Notation "m ;; k" := (bind m (fun _ => k))
  (at level 100, right associativity) : demo_scope.

Definition emit (e : Event) : M unit := fun tr => (Return tt, tr ++ [e]).

Definition exit {A} (code : Z) : M A := fun tr => (Exit code, tr).

Definition perform {A} (e : Event) (answer : Trace -> Result A) : M A :=
  fun tr =>
    match answer tr with
    | Success a => (Return a, tr ++ [e])
    | Failure message => (Throw message, tr ++ [e])
    end.

Definition tryCatch {A} (body : M A) (handler : string -> M A) : M A :=
  fun tr =>
    match body tr with
    | (Throw message, tr') => handler message tr'
    | r => r
    end.

Fixpoint forOf {A} (xs : list A) (body : A -> M unit) : M unit :=
  match xs with
  | [] => ret tt
  | x :: rest => bind (body x) (fun _ => forOf rest body)
  end.

Definition console_log (m : Message) : M unit := emit (ConsoleLog m).
Definition console_error (m : Message) : M unit := emit (ConsoleError m).

Local Open Scope demo_scope.

Definition dquote : string := String (ascii_of_nat 34) EmptyString.

(** The text of the first demonstration: the copyright sign, U+00A9, and
    the year. *)
Definition copyright2024 : string := String (ascii_of_nat 169) " 2024".

Section Script.

Variable host : Host.

Definition IMAGES_DIR : string := path_join host (dirname host) "images".
Definition WATERMARKED_DIR : string := path_join host (dirname host) "watermarked".
Definition LOGO_PATH : string := path_join host (dirname host) "logo.png".

Definition exec (command : Command) : M unit :=
  perform (ExecSync command) (fun tr => execSync host tr command).

Definition ensureDirSync (path : string) : M unit :=
  perform (EnsureDirSync path) (fun tr => fs_ensureDirSync host tr path).

Definition colors : list string := ["red"; "green"; "blue"].

Definition channel (color name : string) : Z :=
  if (color =? name)%string then 255%Z else 0%Z.

(** [createSampleImages] (lines 14-69). *)
Definition createSampleImages : M unit :=
  ensureDirSync IMAGES_DIR ;;
  entries <- perform (ReaddirSync IMAGES_DIR)
               (fun tr => fs_readdirSync host tr IMAGES_DIR) ;;
  if (List.length entries =? 0)%nat then
    console_log MsgCreatingSamples ;;
    forOf colors
      (fun color =>
         let outputPath :=
           path_join host IMAGES_DIR ("sample_" ++ color ++ ".png")%string in
         exec (CreateSample (channel color "red") (channel color "green")
                 (channel color "blue") outputPath)) ;;
    console_log MsgCreatingLogo ;;
    exec (CreateLogo LOGO_PATH)
  else console_log MsgSamplesExist.

Definition watermarker : string :=
  ("node " ++ path_join host (cwd host) "index.js" ++ " -i " ++ IMAGES_DIR
   ++ " -o " ++ WATERMARKED_DIR)%string.

(** [runDemos] (lines 72-84). *)
Definition runDemos : M unit :=
  console_log (MsgDemo 1) ;;
  exec (Shell (watermarker ++ "/text -t " ++ dquote ++ copyright2024 ++ dquote)%string) ;;
  console_log (MsgDemo 2) ;;
  exec (Shell (watermarker ++ "/image -w " ++ LOGO_PATH)%string) ;;
  console_log (MsgDemo 3) ;;
  exec (Shell (watermarker ++ "/custom -t " ++ dquote ++ "CENTER MARK" ++ dquote
               ++ " -p center -a 0.8 -s 0.4")%string) ;;
  console_log MsgCompleted ;;
  console_log (MsgCheckOutput WATERMARKED_DIR).

(** [main] (lines 87-102). *)
Definition main : M unit :=
  tryCatch
    (ensureDirSync IMAGES_DIR ;;
     ensureDirSync WATERMARKED_DIR ;;
     createSampleImages ;;
     runDemos)
    (fun message => console_error (MsgError message) ;; exit 1%Z).

End Script.

Definition isCreation (e : Event) : bool :=
  match e with
  | ExecSync (CreateSample _ _ _ _) | ExecSync (CreateLogo _) => true
  | _ => false
  end.

Definition isRun (e : Event) : bool :=
  match e with ExecSync (Shell _) => true | _ => false end.

Definition isError (e : Event) : bool :=
  match e with ConsoleError _ => true | _ => false end.

Definition isConsole (e : Event) : bool :=
  match e with ConsoleLog _ | ConsoleError _ => true | _ => false end.

Definition count (p : Event -> bool) (tr : Trace) : nat :=
  List.length (List.filter p tr).

(** A host on which everything works; the images directory holds
    [entries]. *)
Definition hostWith (entries : list string) : Host :=
  {| dirname := "/demo"; cwd := "/demo";
     path_join := fun dir file => (dir ++ "/" ++ file)%string;
     fs_ensureDirSync := fun _ _ => Success tt;
     fs_readdirSync := fun _ _ => Success entries;
     execSync := fun _ _ => Success tt |}.

(** A host whose second run of the watermarker fails. *)
Definition hostFailingAtLogoRun : Host :=
  {| dirname := "/demo"; cwd := "/demo";
     path_join := fun dir file => (dir ++ "/" ++ file)%string;
     fs_ensureDirSync := fun _ _ => Success tt;
     fs_readdirSync := fun _ _ => Success ["sample_red.png"];
     execSync := fun tr _ =>
       if (count isRun tr =? 1)%nat then Failure "Command failed" else Success tt |}.

Ltac unfold_script :=
  unfold main, runDemos, createSampleImages, colors, exec, ensureDirSync,
    tryCatch, console_log, console_error;
  cbn [forOf]; unfold bind, perform, emit, ret, exit.

End Demo.


(** ** Tactics: running the monad symbolically *)

(** Traces grow at the end: bring [(tr ++ a) ++ b] to [tr ++ (a ++ b)]. *)
Ltac norm := repeat rewrite <- app_assoc; cbn [app].

(** Unfold the program down to the answers of the world. *)
Ltac unfold_program :=
  unfold main, findImages, processImage, watermarkImage, buildWatermark,
    createTextWatermark, tryCatch, bind, perform, ask, console_log,
    console_error, emit, ret, throw, exit.

(** Case analysis on the innermost answer the goal still waits for. *)
Ltac answer :=
  match goal with
  | |- context [match ?x with _ => _ end] =>
      lazymatch x with
      | context [match _ with _ => _ end] => fail
      | _ => destruct x eqn:?
      end
  end.

Ltac tidy := cbn [fst snd]; norm.

(** * Properties *)

(** ** Placement *)

Section Placement.

Variables (position : string) (W H w h : Q).

Local Abbreviation p := (toLowerCase position).
Local Abbreviation c := (getPositionCoordinates position W H w h).

Lemma position_topleft : p = "topleft" -> c = {| left := 10; top := 10 |}.
Proof. unfold getPositionCoordinates. intros ->. reflexivity. Qed.

Lemma position_topright :
  p = "topright" -> c = {| left := W - w - 10; top := 10 |}.
Proof. unfold getPositionCoordinates. intros ->. reflexivity. Qed.

Lemma position_bottomleft :
  p = "bottomleft" -> c = {| left := 10; top := H - h - 10 |}.
Proof. unfold getPositionCoordinates. intros ->. reflexivity. Qed.

Lemma position_bottomright :
  p = "bottomright" -> c = {| left := W - w - 10; top := H - h - 10 |}.
Proof. unfold getPositionCoordinates. intros ->. reflexivity. Qed.

Lemma position_default :
  p <> "topleft" -> p <> "topright" -> p <> "bottomleft" -> p <> "bottomright" ->
  c = {| left := (W - w) / 2; top := (H - h) / 2 |}.
Proof.
  unfold getPositionCoordinates. intros n1 n2 n3 n4.
  apply String.eqb_neq in n1, n2, n3, n4.
  rewrite n1, n2, n3, n4. reflexivity.
Qed.

End Placement.

Lemma gap_right_corner (W w : Q) (t : Q) :
  gapRight W w {| left := W - w - 10; top := t |} == 10.
Proof. unfold gapRight; simpl. ring. Qed.

Lemma gap_bottom_corner (H h : Q) (l : Q) :
  gapBottom H h {| left := l; top := H - h - 10 |} == 10.
Proof. unfold gapBottom; simpl. ring. Qed.

(** C5.  For every position string and all dimensions the placement is
    total (no error) and, on the lower-cased string: topleft gives (10, 10);
    topright (W-w-10, 10); bottomleft (10, H-h-10); bottomright
    (W-w-10, H-h-10); center and every other string ((W-w)/2, (H-h)/2).
    Each corner placement leaves exactly 10 pixels to the edges of its
    corner, whether or not the overlay fits. *)
Theorem getPositionCoordinates_placement
    (position : string) (W H w h : Q) :
  let p := toLowerCase position in
  let c := getPositionCoordinates position W H w h in
  (p = "topleft" ->
     c = {| left := 10; top := 10 |} /\ gapLeft c == 10 /\ gapTop c == 10) /\
  (p = "topright" ->
     c = {| left := W - w - 10; top := 10 |} /\
     gapRight W w c == 10 /\ gapTop c == 10) /\
  (p = "bottomleft" ->
     c = {| left := 10; top := H - h - 10 |} /\
     gapLeft c == 10 /\ gapBottom H h c == 10) /\
  (p = "bottomright" ->
     c = {| left := W - w - 10; top := H - h - 10 |} /\
     gapRight W w c == 10 /\ gapBottom H h c == 10) /\
  (p = "center" -> c = {| left := (W - w) / 2; top := (H - h) / 2 |}) /\
  (p <> "topleft" -> p <> "topright" -> p <> "bottomleft" ->
   p <> "bottomright" ->
     c = {| left := (W - w) / 2; top := (H - h) / 2 |}).
Proof.
  intros p c.
  repeat split; intros.
  - now apply position_topleft.
  - unfold c; rewrite position_topleft by assumption. reflexivity.
  - unfold c; rewrite position_topleft by assumption. reflexivity.
  - now apply position_topright.
  - unfold c; rewrite position_topright by assumption. apply gap_right_corner.
  - unfold c; rewrite position_topright by assumption. reflexivity.
  - now apply position_bottomleft.
  - unfold c; rewrite position_bottomleft by assumption. reflexivity.
  - unfold c; rewrite position_bottomleft by assumption. apply gap_bottom_corner.
  - now apply position_bottomright.
  - unfold c; rewrite position_bottomright by assumption. apply gap_right_corner.
  - unfold c; rewrite position_bottomright by assumption. apply gap_bottom_corner.
  - apply position_default; fold p; match goal with E : p = _ |- _ => rewrite E end;
      discriminate.
  - now apply position_default.
Qed.

Lemma getPositionCoordinates_placement_witness :
  getPositionCoordinates "topleft" 500 300 125 62
    = {| left := 10; top := 10 |} /\
  getPositionCoordinates "TopRight" 500 300 125 62
    = {| left := 500 - 125 - 10; top := 10 |} /\
  gapBottom 300 62 (getPositionCoordinates "bottomleft" 500 300 125 62) == 10 /\
  getPositionCoordinates "BOTTOMRIGHT" 500 300 125 62
    = {| left := 500 - 125 - 10; top := 300 - 62 - 10 |} /\
  getPositionCoordinates "center" 500 300 125 62
    = {| left := (500 - 125) / 2; top := (300 - 62) / 2 |} /\
  getPositionCoordinates "middle" 500 300 125 62
    = {| left := (500 - 125) / 2; top := (300 - 62) / 2 |}.
Proof.
  refine (conj _ (conj _ (conj _ (conj _ (conj _ _))))).
  - apply (getPositionCoordinates_placement "topleft" 500 300 125 62).
    reflexivity.
  - apply (getPositionCoordinates_placement "TopRight" 500 300 125 62).
    reflexivity.
  - destruct (getPositionCoordinates_placement "bottomleft" 500 300 125 62)
      as (_ & _ & Hbottomleft & _).
    apply Hbottomleft. reflexivity.
  - apply (getPositionCoordinates_placement "BOTTOMRIGHT" 500 300 125 62).
    reflexivity.
  - destruct (getPositionCoordinates_placement "center" 500 300 125 62)
      as (_ & _ & _ & _ & Hcenter & _).
    apply Hcenter. reflexivity.
  - apply (getPositionCoordinates_placement "middle" 500 300 125 62);
      discriminate.
Defined.

(** ** Text sizing *)







(** ** One file, whatever the world answers *)

Section PerFile.

Variable w : World.
Variable options : Options.

Lemma processImage_segment (inputFile : string) (tr : Trace) :
  exists seg,
    processImage w options inputFile tr = (Return tt, tr ++ seg) /\
    fileSegment w inputFile seg.
Proof.
  unfold fileSegment. unfold_program.
  cbn beta iota delta [negb]; repeat (answer; cbn beta iota delta [negb]); tidy.
  all: try (eexists; split; [reflexivity | eexists; split; [reflexivity | ]]).
  all: try (right; reflexivity).
  all: try (left; reflexivity).
Qed.

End PerFile.

(** The loop runs its body on every element as long as the body returns. *)
Lemma forOf_segments {A} (P : A -> Trace -> Prop) (body : A -> M unit) :
  (forall x tr, exists seg, body x tr = (Return tt, tr ++ seg) /\ P x seg) ->
  forall xs tr,
    exists segs,
      forOf xs body tr = (Return tt, tr ++ concat segs) /\ Forall2 P xs segs.
Proof.
  intros Hbody xs. induction xs as [| x rest IH]; intros tr.
  - exists []. cbn. rewrite app_nil_r. split; [reflexivity | constructor].
  - destruct (Hbody x tr) as (seg & Hrun & Hseg).
    destruct (IH (tr ++ seg)) as (segs & Hrest & Hall).
    exists (seg :: segs). split.
    + cbn [forOf]. unfold bind. rewrite Hrun, Hrest.
      cbn [concat]. now rewrite app_assoc.
    + now constructor.
Qed.

Lemma count_app (p : Event -> bool) (a b : Trace) :
  count p (a ++ b) = (count p a + count p b)%nat.
Proof. unfold count. now rewrite filter_app, length_app. Qed.

Lemma count_none (p : Event -> bool) (tr : Trace) :
  Forall (fun e => p e = false) tr -> count p tr = 0%nat.
Proof.
  unfold count. induction 1 as [| e tr He _ IH]; cbn; [reflexivity |].
  now rewrite He.
Qed.

Lemma count_concat {A} (p q : Event -> bool) (xs : list A) (segs : list Trace) :
  Forall2 (fun _ seg => count p seg = count q seg) xs segs ->
  count p (concat segs) = count q (concat segs).
Proof.
  induction 1 as [| x seg xs segs H _ IH]; cbn [concat]; [reflexivity |].
  now rewrite !count_app, H, IH.
Qed.

Section Driver.

Variable w : World.
Variable options : Options.

Local Abbreviation input := (options_input options).
Local Abbreviation output := (options_output options).
Local Abbreviation filter := (options_filter options).

(** [main], one answer of the world at a time. *)
Lemma main_unfold (tr : Trace) :
  main w options tr =
  let tr0 := tr ++ [ConsoleLog (MsgSearching input); ConsoleLog (MsgOutputDir output)] in
  match glob w tr0 filter input with
  | Failure message =>
      (Exit 1%Z, tr0 ++ [Glob filter input; ConsoleError (MsgFatal message)])
  | Success images =>
      if (List.length images =? 0)%nat
      then (Return tt, tr0 ++ [Glob filter input; ConsoleLog MsgNoImages])
      else
        match forOf images (processImage w options)
                (tr0 ++ [Glob filter input; ConsoleLog (MsgFound (List.length images))])
        with
        | (Return _, tr1) => (Return tt, tr1 ++ [ConsoleLog (MsgDone (List.length images))])
        | (Throw message, tr1) => (Exit 1%Z, tr1 ++ [ConsoleError (MsgFatal message)])
        | (Exit code, tr1) => (Exit code, tr1)
        end
  end.
Proof.
  unfold main, findImages, tryCatch, bind, perform, console_log, console_error,
    emit, ret, throw, exit.
  cbn beta iota zeta. norm.
  destruct (glob w _ _ _) as [images | message]; cbn beta iota; norm.
  - destruct (List.length images =? 0)%nat; cbn beta iota; norm.
    + reflexivity.
    + destruct (forOf images _ _) as [[[] | message | code] tr1]; reflexivity.
  - reflexivity.
Qed.


(** The module body, one answer of the world at a time. *)
Lemma program_unfold (tr : Trace) :
  program w options tr =
  if fs_existsSync w tr input then
    match fs_ensureDirSync w (tr ++ [ExistsSync input]) output with
    | Success _ =>
        if negb (truthy (options_watermark options))
           && negb (truthy (options_text options))
        then (Exit 1%Z,
              tr ++ [ExistsSync input; EnsureDirSync output;
                     ConsoleError MsgNoWatermark])
        else main w options (tr ++ [ExistsSync input; EnsureDirSync output])
    | Failure message =>
        (Throw message, tr ++ [ExistsSync input; EnsureDirSync output])
    end
  else (Exit 1%Z, tr ++ [ExistsSync input; ConsoleError (MsgInputMissing input)]).
Proof.
  unfold program, bind, ask, perform, console_error, emit, ret, exit.
  destruct (fs_existsSync w tr _); cbn beta iota delta [negb]; norm.
  - destruct (fs_ensureDirSync w _ _) as [[] | message]; cbn beta iota;
      norm; [| reflexivity].
    destruct (negb _ && negb _)%bool; cbn beta iota; norm; reflexivity.
  - reflexivity.
Qed.

Section Segments.

Variable P : string -> Trace -> Prop.
Hypothesis per_file :
  forall inputFile tr,
    exists seg, processImage w options inputFile tr = (Return tt, tr ++ seg)
                /\ P inputFile seg.

(** Once the images are listed, [main] returns normally after one segment
    per image, in the order of the list. *)
Lemma main_segments (tr : Trace) (images : list string) :
  glob w (tr ++ [ConsoleLog (MsgSearching input); ConsoleLog (MsgOutputDir output)])
    filter input = Success images ->
  exists segs,
    Forall2 P images segs /\
    main w options tr =
      (Return tt,
       tr ++ [ConsoleLog (MsgSearching input); ConsoleLog (MsgOutputDir output);
              Glob filter input]
          ++ match images with
             | [] => [ConsoleLog MsgNoImages]
             | _ => ConsoleLog (MsgFound (List.length images)) :: concat segs
                      ++ [ConsoleLog (MsgDone (List.length images))]
             end).
Proof.
  intros Hglob. rewrite main_unfold. cbn zeta. rewrite Hglob.
  destruct images as [| image rest].
  - exists []. split; [constructor |]. cbn. now rewrite <- app_assoc.
  - remember (image :: rest) as images eqn:E.
    replace (List.length images =? 0)%nat with false by (subst; reflexivity).
    destruct (forOf_segments P (processImage w options) per_file images
                ((tr ++ [ConsoleLog (MsgSearching input);
                         ConsoleLog (MsgOutputDir output)])
                 ++ [Glob filter input; ConsoleLog (MsgFound (List.length images))]))
      as (segs & Hrun & Hall).
    exists segs. split; [exact Hall |].
    rewrite Hrun. subst images. f_equal.
    repeat rewrite <- app_assoc. reflexivity.
Qed.

(** The trace of a whole run: effects of the driver, then one segment per
    image that was listed, then effects of the driver again. *)
Lemma run_structure :
  exists pre images segs post,
    snd (run w options) = pre ++ concat segs ++ post /\
    Forall (fun e => isDriver e = true) pre /\
    Forall (fun e => isDriver e = true) post /\
    Forall2 P images segs.
Proof.
  unfold run. rewrite program_unfold. cbn [app].
  destruct (fs_existsSync w [] input).
  2:{ exists [ExistsSync input; ConsoleError (MsgInputMissing input)], [], [], [].
      cbn. repeat split; repeat constructor. }
  destruct (fs_ensureDirSync w _ output) as [[] | message].
  2:{ exists [ExistsSync input; EnsureDirSync output], [], [], [].
      cbn. repeat split; repeat constructor. }
  destruct (negb _ && negb _)%bool.
  { exists [ExistsSync input; EnsureDirSync output; ConsoleError MsgNoWatermark],
      [], [], [].
    cbn. repeat split; repeat constructor. }
  destruct (glob w ([ExistsSync input; EnsureDirSync output]
                    ++ [ConsoleLog (MsgSearching input);
                        ConsoleLog (MsgOutputDir output)]) filter input)
    as [images | message] eqn:Hglob.
  - destruct (main_segments _ images Hglob) as (segs & Hall & Hrun).
    rewrite Hrun. cbn [snd].
    destruct images as [| image rest].
    + exists [ExistsSync input; EnsureDirSync output;
              ConsoleLog (MsgSearching input); ConsoleLog (MsgOutputDir output);
              Glob filter input; ConsoleLog MsgNoImages], [], [], [].
      cbn. repeat split; repeat constructor.
    + exists [ExistsSync input; EnsureDirSync output;
              ConsoleLog (MsgSearching input); ConsoleLog (MsgOutputDir output);
              Glob filter input; ConsoleLog (MsgFound (List.length (image :: rest)))],
        (image :: rest), segs,
        [ConsoleLog (MsgDone (List.length (image :: rest)))].
      split; [reflexivity |].
      split; [repeat constructor |]. split; [repeat constructor | exact Hall].
  - rewrite main_unfold. cbn zeta. rewrite Hglob.
    exists [ExistsSync input; EnsureDirSync output;
            ConsoleLog (MsgSearching input); ConsoleLog (MsgOutputDir output);
            Glob filter input; ConsoleError (MsgFatal message)], [], [], [].
    cbn. repeat split; repeat constructor.
Qed.

End Segments.

End Driver.

(** ** One image *)

Section OneImage.

Variable w : World.
Variable options : Options.
Variables (inputFile filename outputFile : string) (W H : Z).



End OneImage.

(** ** Counting over a run *)

Section OneFile.

Variable w : World.
Variable options : Options.



(** Counting over a whole run, from what holds of every file. *)
Lemma run_counts (p q : Event -> bool) :
  (forall e, isDriver e = true -> p e = false /\ q e = false) ->
  (forall inputFile tr,
     exists seg, processImage w options inputFile tr = (Return tt, tr ++ seg)
                 /\ count p seg = count q seg) ->
  count p (snd (run w options)) = count q (snd (run w options)).
Proof.
  intros Hdriver Hfile.
  destruct (run_structure w options (fun _ seg => count p seg = count q seg) Hfile)
    as (pre & images & segs & post & -> & Hpre & Hpost & Hsegs).
  assert (forall l, Forall (fun e => isDriver e = true) l ->
                    count p l = 0%nat /\ count q l = 0%nat) as Hzero.
  { intros l Hl. split; apply count_none; eapply Forall_impl; try exact Hl;
      intros e He; now apply Hdriver. }
  destruct (Hzero pre Hpre) as [Ep Eq]. destruct (Hzero post Hpost) as [Ep' Eq'].
  rewrite !count_app, Ep, Eq, Ep', Eq'.
  now rewrite (count_concat p q images segs Hsegs).
Qed.

End OneFile.

Lemma driver_not_per_file (e : Event) :
  isDriver e = true -> isResize e = false /\ isDecoded e = false.
Proof.
  destruct e as [m | m | | | | | | | | | |]; try destruct m; cbn;
    intros; try discriminate; split; reflexivity.
Qed.

Lemma truthy_text (o : option string) :
  truthy o = true -> exists text, o = Some text /\ text <> EmptyString.
Proof.
  destruct o as [text |]; cbn; [| discriminate].
  intros Ht. exists text. split; [reflexivity |].
  apply String.eqb_neq. now destruct (text =? "")%string.
Qed.


(** ** Start-up, the loop and the overlay *)

(** C1, as the program has it.  At least one of the watermark image and
    the text must be set.  With neither, the run ends with status 1 and
    performs nothing but start-up effects: [main] is never entered.  With
    one or both, and an input directory that exists and an output
    directory that could be ensured, the run is that of [main]. *)
Theorem startup_requires_a_watermark (w : World) (options : Options) :
  (truthy (options_watermark options) = false ->
   truthy (options_text options) = false ->
   exitCode (fst (run w options)) = 1%Z /\
   Forall (fun e => isStartup e = true) (snd (run w options))) /\
  (truthy (options_watermark options) || truthy (options_text options) = true ->
   fs_existsSync w [] (options_input options) = true ->
   fs_ensureDirSync w [ExistsSync (options_input options)] (options_output options)
     = Success tt ->
   run w options =
     main w options [ExistsSync (options_input options);
                     EnsureDirSync (options_output options)]).
Proof.
  unfold run. rewrite program_unfold. cbn [app]. split.
  - intros -> ->. cbn [negb andb].
    destruct (fs_existsSync w [] _).
    + destruct (fs_ensureDirSync w _ _); cbn; split; try reflexivity;
        repeat constructor.
    + cbn. split; [reflexivity | repeat constructor].
  - intros Hone -> ->.
    destruct (truthy (options_watermark options)), (truthy (options_text options));
      try discriminate; reflexivity.
Qed.

Lemma startup_requires_a_watermark_witness :
  (exitCode (fst (run demoWorld bareOptions)) = 1%Z /\
   Forall (fun e => isStartup e = true) (snd (run demoWorld bareOptions))) /\
  run demoWorld bothOptions =
    main demoWorld bothOptions [ExistsSync "images"; EnsureDirSync "./watermarked"].
Proof.
  split.
  - apply (startup_requires_a_watermark demoWorld bareOptions); reflexivity.
  - apply (startup_requires_a_watermark demoWorld bothOptions); reflexivity.
Defined.

(** C1 as stated fails: with both a watermark image and a text the run is
    not rejected; it ends with status 0 after writing the three images. *)
Lemma both_sources_accepted :
  truthy (options_watermark bothOptions) = true /\
  truthy (options_text bothOptions) = true /\
  exitCode (fst (run demoWorld bothOptions)) = 0%Z /\
  count isSuccess (snd (run demoWorld bothOptions)) = 3%nat.
Proof. repeat split; vm_compute; reflexivity. Qed.

(** C4, as the program has it.  With neither source set the run ends with
    status 1; besides the check of the input directory, its only effect on
    the file system is to ensure the output directory, which it does
    whenever the input directory exists. *)
Theorem missing_watermark_exit (w : World) (options : Options) :
  truthy (options_watermark options) = false ->
  truthy (options_text options) = false ->
  let input := options_input options in
  let output := options_output options in
  exitCode (fst (run w options)) = 1%Z /\
  run w options =
    if fs_existsSync w [] input then
      match fs_ensureDirSync w [ExistsSync input] output with
      | Success _ =>
          (Exit 1%Z,
           [ExistsSync input; EnsureDirSync output; ConsoleError MsgNoWatermark])
      | Failure message =>
          (Throw message, [ExistsSync input; EnsureDirSync output])
      end
    else (Exit 1%Z, [ExistsSync input; ConsoleError (MsgInputMissing input)]).
Proof.
  intros Hw Ht input output. subst input output.
  unfold run. rewrite program_unfold. cbn [app]. rewrite Hw, Ht. cbn [negb andb].
  destruct (fs_existsSync w [] _); [| split; reflexivity].
  destruct (fs_ensureDirSync w _ _); split; reflexivity.
Qed.

Lemma missing_watermark_exit_witness :
  exitCode (fst (run demoWorld bareOptions)) = 1%Z /\
  run demoWorld bareOptions =
    (Exit 1%Z,
     [ExistsSync "images"; EnsureDirSync "./watermarked";
      ConsoleError MsgNoWatermark]).
Proof.
  apply (missing_watermark_exit demoWorld bareOptions); reflexivity.
Defined.

(** C4 as stated fails: with neither source set, the output directory is
    ensured before the run exits. *)
Lemma output_directory_ensured_before_exit :
  truthy (options_watermark bareOptions) = false /\
  truthy (options_text bareOptions) = false /\
  fst (run demoWorld bareOptions) = Exit 1%Z /\
  In (EnsureDirSync "./watermarked") (snd (run demoWorld bareOptions)).
Proof.
  repeat split. cbn. right. left. reflexivity.
Qed.








(** The floor of a half is the integer quotient. *)
Lemma Qfloor_half (a b : Z) :
  Qfloor ((inject_Z a - inject_Z b) / 2) = ((a - b) / 2)%Z.
Proof.
  rewrite (Zdiv_Qdiv (a - b) 2). apply Qfloor_comp.
  unfold Zminus. rewrite inject_Z_plus, inject_Z_opp. reflexivity.
Qed.

Lemma Qfloor_half_odd (a b : Z) :
  Z.odd (a - b) = true ->
  inject_Z (Qfloor ((inject_Z a - inject_Z b) / 2))
    == (inject_Z a - inject_Z b) / 2 - (1 # 2).
Proof.
  intros Hodd. rewrite Qfloor_half.
  apply Z.odd_spec in Hodd. destruct Hodd as [k Hk].
  assert (((a - b) / 2)%Z = k) as ->
    by (rewrite Hk; symmetry; apply (Z.div_unique _ 2 k 1); lia).
  assert (inject_Z a - inject_Z b == inject_Z (2 * k + 1)) as ->
    by (rewrite <- Hk; unfold Zminus; rewrite inject_Z_plus, inject_Z_opp;
        reflexivity).
  rewrite inject_Z_plus, inject_Z_mult.
  change (inject_Z 1) with 1. change (inject_Z 2) with 2. field.
Qed.

(** C9.  Once the overlay is built and its size [ow] x [oh] known, the
    composite is asked for at the floor of the coordinates the placement
    returns.  For center (and every string that names no corner) these are
    the integer quotients (W-ow)/2 and (H-oh)/2, half a pixel below the
    exact value when the difference is odd. *)
Theorem composite_offsets_are_floored
    (w : World) (options : Options) (inputFile filename outputFile : string)
    (W H : Z) (tr tr1 : Trace) (overlay : Buffer) (ow oh : Z) :
  buildWatermark w options (watermarkMaxWidth options W)
    (watermarkMaxHeight options H) tr = (Return (Some overlay), tr1) ->
  sharp_bufferMetadata w tr1 overlay = Success (ow, oh) ->
  let position :=
    getPositionCoordinates (options_position options)
      (inject_Z W) (inject_Z H) (inject_Z ow) (inject_Z oh) in
  let p := toLowerCase (options_position options) in
  (exists last,
     snd (watermarkImage w options inputFile filename outputFile W H tr)
       = tr1 ++ [BufferMetadata overlay;
                 CompositeToFile inputFile overlay
                   (Qfloor (left position)) (Qfloor (top position))
                   (options_opacity options) outputFile;
                 last]) /\
  (p <> "topleft" -> p <> "topright" -> p <> "bottomleft" -> p <> "bottomright" ->
   Qfloor (left position) = ((W - ow) / 2)%Z /\
   Qfloor (top position) = ((H - oh) / 2)%Z /\
   (Z.odd (W - ow) = true ->
    inject_Z (Qfloor (left position)) == left position - (1 # 2)) /\
   (Z.odd (H - oh) = true ->
    inject_Z (Qfloor (top position)) == top position - (1 # 2))).
Proof.
  intros Hbuild Hsize position p. split.
  - unfold watermarkImage, bind. rewrite Hbuild.
    unfold tryCatch, bind, perform, console_log, console_error, emit, ret.
    rewrite Hsize. cbn beta iota. fold position.
    destruct (sharp_compositeToFile w _ _ _ _ _ _ _); cbn [snd]; norm;
      eexists; reflexivity.
  - intros n1 n2 n3 n4. subst position p.
    rewrite position_default by assumption. cbn [left top].
    repeat split.
    + apply Qfloor_half.
    + apply Qfloor_half.
    + apply Qfloor_half_odd.
    + apply Qfloor_half_odd.
Qed.

Lemma composite_offsets_are_floored_witness :
  exists last,
    snd (watermarkImage demoWorld textOptions "/demo/images/sample_red.png"
           "sample_red.png" "watermarked/custom/sample_red.png" 500 300 [])
      = snd (buildWatermark demoWorld textOptions
               (watermarkMaxWidth textOptions 500)
               (watermarkMaxHeight textOptions 300) [])
        ++ [BufferMetadata [Byte.x01];
            CompositeToFile "/demo/images/sample_red.png" [Byte.x01]
              133 130 0.8 "watermarked/custom/sample_red.png";
            last].
Proof.
  apply (composite_offsets_are_floored demoWorld textOptions
           "/demo/images/sample_red.png" "sample_red.png"
           "watermarked/custom/sample_red.png" 500 300 []
           (snd (buildWatermark demoWorld textOptions
                   (watermarkMaxWidth textOptions 500)
                   (watermarkMaxHeight textOptions 300) []))
           [Byte.x01] 233 39); reflexivity.
Defined.




(** The damaged directory: one image written, two skipped, status 0. *)
Example damaged_run :
  exitCode (fst (run damagedWorld textOptions)) = 0%Z /\
  count isSuccess (snd (run damagedWorld textOptions)) = 1%nat /\
  count isError (snd (run damagedWorld textOptions)) = 2%nat /\
  count isComposite (snd (run damagedWorld textOptions)) = 1%nat.
Proof. repeat split; vm_compute; reflexivity. Qed.

(** * Further properties *)

(** ** Position strings *)

Lemma toLowerCase_unit_idempotent (c : ascii) :
  toLowerCase_unit (toLowerCase_unit c) = toLowerCase_unit c.
Proof.
  destruct c as [[] [] [] [] [] [] [] []]; reflexivity.
Qed.

Lemma toLowerCase_idempotent (s : string) :
  toLowerCase (toLowerCase s) = toLowerCase s.
Proof.
  induction s as [| c rest IH]; cbn [toLowerCase]; [reflexivity |].
  now rewrite toLowerCase_unit_idempotent, IH.
Qed.

(** X1.  The placement does not depend on the case of the position
    string: a string and its lower-cased form are placed alike, and so are
    any two strings that differ in case only. *)
Theorem getPositionCoordinates_ignores_case
    (position position' : string) (W H w h : Q) :
  getPositionCoordinates (toLowerCase position) W H w h
    = getPositionCoordinates position W H w h /\
  (toLowerCase position = toLowerCase position' ->
   getPositionCoordinates position W H w h
     = getPositionCoordinates position' W H w h).
Proof.
  split.
  - unfold getPositionCoordinates. now rewrite toLowerCase_idempotent.
  - intros E. unfold getPositionCoordinates. now rewrite E.
Qed.

Lemma getPositionCoordinates_ignores_case_witness :
  getPositionCoordinates "BottomLeft" 500 300 125 62
    = getPositionCoordinates "bottomLEFT" 500 300 125 62.
Proof.
  apply (getPositionCoordinates_ignores_case "BottomLeft" "bottomLEFT").
  reflexivity.
Defined.

(** ** Placement inside the image *)

(** X2.  When the overlay leaves 20 pixels in each direction
    (w + 20 <= W and h + 20 <= H), every placement, corner or center, keeps
    it at least 10 pixels away from all four edges of the image. *)
Theorem placement_keeps_margin (position : string) (W H w h : Q) :
  w + 20 <= W -> h + 20 <= H ->
  keepsMargin 10 W H w h (getPositionCoordinates position W H w h).
Proof.
  intros Hw Hh. unfold keepsMargin, gapLeft, gapTop, gapRight, gapBottom.
  unfold getPositionCoordinates, padding.
  assert (forall a b : Q, b + 20 <= a -> 10 <= (a - b) / 2) as Hlow.
  { intros a b Hab. apply Qle_shift_div_l; [reflexivity |].
    apply (Qplus_le_l _ _ b). ring_simplify.
    eapply Qle_trans; [| exact Hab]. rewrite Qplus_comm. apply Qle_refl. }
  assert (forall a b : Q, b + 20 <= a -> 10 <= a - ((a - b) / 2 + b)) as Hhigh.
  { intros a b Hab.
    assert (a - ((a - b) / 2 + b) == (a - b) / 2) as -> by field.
    now apply Hlow. }
  assert (forall a b : Q, b + 20 <= a -> 10 <= a - b - 10) as Hfar.
  { intros a b Hab. apply (Qplus_le_l _ _ (b + 10)). ring_simplify.
    eapply Qle_trans; [| exact Hab]. rewrite Qplus_comm. apply Qle_refl. }
  assert (forall a b : Q, 10 <= a - (a - b - 10 + b)) as Hnear.
  { intros a b. assert (a - (a - b - 10 + b) == 10) as -> by ring.
    apply Qle_refl. }
  assert (forall a b : Q, b + 20 <= a -> 10 <= a - (10 + b)) as Hopp.
  { intros a b Hab. assert (a - (10 + b) == a - b - 10) as -> by ring.
    now apply Hfar. }
  repeat match goal with
         | |- context [if ?b then _ else _] => destruct b
         end; cbn [left top]; repeat split;
    auto using Qle_refl.
Qed.

Lemma placement_keeps_margin_witness :
  keepsMargin 10 500 300 125 62 (getPositionCoordinates "center" 500 300 125 62).
Proof.
  apply placement_keeps_margin; unfold Qle; cbn; lia.
Defined.

(** X3.  At the four corners the coordinates are whole numbers, so the
    floor taken before compositing changes nothing: for integer sizes the
    composite offsets are exactly 10, W-w-10 and H-h-10. *)
Theorem corner_offsets_are_exact (position : string) (W H w h : Z) :
  let p := toLowerCase position in
  let c :=
    getPositionCoordinates position (inject_Z W) (inject_Z H)
      (inject_Z w) (inject_Z h) in
  (p = "topleft" -> Qfloor (left c) = 10%Z /\ Qfloor (top c) = 10%Z) /\
  (p = "topright" ->
     Qfloor (left c) = (W - w - 10)%Z /\ Qfloor (top c) = 10%Z) /\
  (p = "bottomleft" ->
     Qfloor (left c) = 10%Z /\ Qfloor (top c) = (H - h - 10)%Z) /\
  (p = "bottomright" ->
     Qfloor (left c) = (W - w - 10)%Z /\ Qfloor (top c) = (H - h - 10)%Z).
Proof.
  intros p c.
  assert (forall a b : Z,
             Qfloor (inject_Z a - inject_Z b - 10) = (a - b - 10)%Z) as Hcorner.
  { intros a b. rewrite <- (Qfloor_Z (a - b - 10)). apply Qfloor_comp.
    unfold Zminus. rewrite !inject_Z_plus, !inject_Z_opp. reflexivity. }
  refine (conj _ (conj _ (conj _ _))); intros E; subst c.
  - rewrite position_topleft by exact E. split; reflexivity.
  - rewrite position_topright by exact E. cbn [left top].
    split; [apply Hcorner | reflexivity].
  - rewrite position_bottomleft by exact E. cbn [left top].
    split; [reflexivity | apply Hcorner].
  - rewrite position_bottomright by exact E. cbn [left top].
    split; apply Hcorner.
Qed.

Lemma corner_offsets_are_exact_witness :
  Qfloor (left (getPositionCoordinates "bottomright" 500 300 125 62)) = 365%Z /\
  Qfloor (top (getPositionCoordinates "bottomright" 500 300 125 62)) = 228%Z.
Proof.
  destruct (corner_offsets_are_exact "bottomright" 500 300 125 62)
    as (_ & _ & _ & Hbr).
  apply Hbr. reflexivity.
Defined.

(** ** The text layout *)

Lemma length_nonneg (s : string) : 0 <= JS.length s.
Proof.
  unfold JS.length. change 0 with (inject_Z 0). rewrite <- Zle_Qle. lia.
Qed.







Lemma Math_floor_le (x y : Q) : x <= y -> Math_floor x <= Math_floor y.
Proof.
  intros Hxy. unfold Math_floor. rewrite <- Zle_Qle. now apply Qfloor_resp_le.
Qed.

Lemma Qdiv_le_compat (x y d : Q) : 0 <= d -> x <= y -> x / d <= y / d.
Proof.
  intros Hd Hxy. unfold Qdiv. apply Qmult_le_compat_r; [exact Hxy |].
  now apply Qinv_le_0_compat.
Qed.

(** X6.  The font size grows with the box: a wider and higher target never
    gives a smaller font for the same text. *)
Theorem fontSize_monotone (text : string) (width height width' height' : Q) :
  text <> EmptyString ->
  width <= width' -> height <= height' ->
  fontSize (textLayout text width height)
    <= fontSize (textLayout text width' height').
Proof.
  intros _ Hw Hh. unfold textLayout; cbn [fontSize].
  unfold Math_max, Math_min.
  assert (Qmax 50 width <= Qmax 50 width') as Hww
    by (apply Q.max_le_compat_l; exact Hw).
  assert (Qmax 50 (height * 0.6) <= Qmax 50 (height' * 0.6)) as Hwh.
  { apply Q.max_le_compat_l. apply Qmult_le_compat_r; [exact Hh |].
    unfold Qle; cbn; lia. }
  assert (Math_floor (Qmin (Qmax 50 width / 5) (Qmax 50 (height * 0.6) / 1.2))
          <= Math_floor (Qmin (Qmax 50 width' / 5)
                           (Qmax 50 (height' * 0.6) / 1.2))) as Hcand.
  { apply Math_floor_le. apply Q.min_le_compat;
      (apply Qdiv_le_compat; [unfold Qle; cbn; lia | assumption]). }
  apply Q.max_le_compat_l. apply Q.min_le_compat.
  - destruct (8 <? String.length text)%nat; [| exact Hcand].
    apply Math_floor_le.
    apply Qmult_le_compat_r; [| unfold Qle; cbn; lia].
    apply Qmult_le_compat_r; [exact Hcand |].
    apply Q.min_glb; [unfold Qle; cbn; lia |].
    apply Qmult_le_0_compat; [unfold Qle; cbn; lia |].
    apply Qinv_le_0_compat, length_nonneg.
  - apply Q.min_le_compat.
    + apply Qdiv_le_compat; [| exact Hww].
      apply Qmult_le_0_compat; [apply length_nonneg | unfold Qle; cbn; lia].
    + apply Qmult_le_compat_r; [exact Hwh | unfold Qle; cbn; lia].
Qed.

Lemma fontSize_monotone_witness :
  fontSize (textLayout "CENTER MARK" 200 120)
    <= fontSize (textLayout "CENTER MARK" 400 240).
Proof.
  apply fontSize_monotone; [discriminate | |]; unfold Qle; cbn; lia.
Defined.





(** ** How a run ends *)

(** X8.  How a run ends depends on four answers only.  It ends with
    status 0 exactly when the input directory exists, the output directory
    could be ensured, a watermark source is set and the files could be
    listed; an output directory that cannot be ensured is an uncaught
    exception; every other failure is [process.exit(1)].  Nothing that
    happens to a single file changes it. *)
Theorem run_outcome (w : World) (options : Options) :
  let input := options_input options in
  let output := options_output options in
  fst (run w options) =
    if fs_existsSync w [] input then
      match fs_ensureDirSync w [ExistsSync input] output with
      | Failure message => Throw message
      | Success _ =>
          if negb (truthy (options_watermark options))
             && negb (truthy (options_text options))
          then Exit 1%Z
          else
            match glob w [ExistsSync input; EnsureDirSync output;
                          ConsoleLog (MsgSearching input);
                          ConsoleLog (MsgOutputDir output)]
                    (options_filter options) input
            with
            | Success _ => Return tt
            | Failure _ => Exit 1%Z
            end
      end
    else Exit 1%Z.
Proof.
  intros input output. subst input output.
  unfold run. rewrite program_unfold. cbn [app].
  destruct (fs_existsSync w [] _); [| reflexivity].
  destruct (fs_ensureDirSync w _ _) as [[] | message]; [| reflexivity].
  destruct (negb _ && negb _)%bool; [reflexivity |].
  rewrite main_unfold. cbn zeta. cbn [app].
  destruct (glob w _ _ _) as [images | message]; [| reflexivity].
  destruct (List.length images =? 0)%nat; [reflexivity |].
  match goal with
  | |- context [forOf images _ ?t] =>
      destruct (forOf_segments (fileSegment w) (processImage w options)
                  (processImage_segment w options) images t)
        as (segs & Hrun & _)
  end.
  rewrite Hrun. reflexivity.
Qed.

(** X9.  The three fatal errors and what was done by then.  A missing
    input directory ends the run before the output directory is touched,
    whatever the other options; an output directory that cannot be ensured
    ends it with the exception, nothing logged; a listing that fails is
    logged and ends it before any file is looked at. *)
Theorem fatal_errors (w : World) (options : Options) :
  let input := options_input options in
  let output := options_output options in
  let filter := options_filter options in
  (fs_existsSync w [] input = false ->
   run w options =
     (Exit 1%Z, [ExistsSync input; ConsoleError (MsgInputMissing input)])) /\
  (forall message,
     fs_existsSync w [] input = true ->
     fs_ensureDirSync w [ExistsSync input] output = Failure message ->
     run w options = (Throw message, [ExistsSync input; EnsureDirSync output])) /\
  (forall message,
     fs_existsSync w [] input = true ->
     fs_ensureDirSync w [ExistsSync input] output = Success tt ->
     truthy (options_watermark options) || truthy (options_text options) = true ->
     glob w [ExistsSync input; EnsureDirSync output;
             ConsoleLog (MsgSearching input); ConsoleLog (MsgOutputDir output)]
       filter input = Failure message ->
     run w options =
       (Exit 1%Z,
        [ExistsSync input; EnsureDirSync output;
         ConsoleLog (MsgSearching input); ConsoleLog (MsgOutputDir output);
         Glob filter input; ConsoleError (MsgFatal message)])).
Proof.
  intros input output filter. subst input output filter.
  unfold run. rewrite program_unfold. cbn [app].
  refine (conj _ (conj _ _)).
  - intros ->. reflexivity.
  - intros message -> ->. reflexivity.
  - intros message -> -> Hsource Hglob.
    replace (negb (truthy (options_watermark options))
             && negb (truthy (options_text options)))%bool with false
      by (destruct (truthy (options_watermark options)),
            (truthy (options_text options)); try reflexivity; discriminate).
    rewrite main_unfold. cbn zeta. cbn [app]. rewrite Hglob. reflexivity.
Qed.

Lemma fatal_errors_witness :
  run (worldOf false (Success tt) (Success demoImages) (Success tt) regularFile
         (Success [Byte.x01]) (Success [Byte.x02]) (Success tt)) imageOptions
    = (Exit 1%Z, [ExistsSync "images"; ConsoleError (MsgInputMissing "images")]) /\
  run (worldOf true (Failure "EACCES") (Success demoImages) (Success tt) regularFile
         (Success [Byte.x01]) (Success [Byte.x02]) (Success tt)) imageOptions
    = (Throw "EACCES", [ExistsSync "images"; EnsureDirSync "watermarked/image"]) /\
  run (worldOf true (Success tt) (Failure "EMFILE") (Success tt) regularFile
         (Success [Byte.x01]) (Success [Byte.x02]) (Success tt)) imageOptions
    = (Exit 1%Z,
       [ExistsSync "images"; EnsureDirSync "watermarked/image";
        ConsoleLog (MsgSearching "images");
        ConsoleLog (MsgOutputDir "watermarked/image");
        Glob "*.{jpg,jpeg,png,gif,webp}" "images";
        ConsoleError (MsgFatal "EMFILE")]).
Proof.
  refine (conj _ (conj _ _)).
  - apply (fatal_errors (worldOf false _ _ _ _ _ _ _) imageOptions). reflexivity.
  - apply (fatal_errors (worldOf true (Failure "EACCES") _ _ _ _ _ _) imageOptions);
      reflexivity.
  - apply (fatal_errors (worldOf true (Success tt) (Failure "EMFILE") _ _ _ _ _)
             imageOptions); reflexivity.
Defined.

(** ** What happens to one file *)

(** Bring the answers collected so far to the shape the statements use. *)
Ltac facts :=
  repeat match goal with
         | H : context [(_ ++ _) ++ _] |- _ => rewrite <- app_assoc in H; cbn [app] in H
         | H : negb _ = false |- _ => apply Bool.negb_false_iff in H
         | H : (_ || _)%bool = false |- _ => apply Bool.orb_false_elim in H; destruct H
         | H : (_ =? _)%Z = false |- _ => apply Z.eqb_neq in H
         | u : unit |- _ => destruct u
         end.

Section FileSafety.

Variable w : World.
Variable options : Options.
Variable inputFile : string.
Variable tr : Trace.

Local Abbreviation processing :=
  (ConsoleLog (MsgProcessing (path_basename w inputFile))).

(** X10.  A file is composited at most once, and only when it could be
    read, is a regular file, is not empty and has non-zero dimensions; the
    composite reads that very file, uses the configured opacity and writes
    to the output directory under the base name of the file. *)
Theorem composite_only_for_valid_files :
  exists seg,
    processImage w options inputFile tr = (Return tt, tr ++ seg) /\
    (count isComposite seg <= 1)%nat /\
    forall file overlay x y opacity out,
      In (CompositeToFile file overlay x y opacity out) seg ->
      file = inputFile /\
      out = path_join w (options_output options) (path_basename w inputFile) /\
      opacity = options_opacity options /\
      fs_access w (tr ++ [processing]) inputFile = Success tt /\
      exists stats md,
        fs_stat w (tr ++ [processing; Access inputFile]) inputFile = Success stats /\
        isFile stats = true /\ size stats <> 0%Z /\
        sharp_metadata w (tr ++ [processing; Access inputFile; Stat inputFile])
          inputFile = Success md /\
        truthy_num (metadata_width md) = true /\
        truthy_num (metadata_height md) = true.
Proof.
  unfold_program.
  cbn beta iota delta [negb]; repeat (answer; cbn beta iota delta [negb]); tidy.
  all: eexists; split; [reflexivity |]; split; [cbn; lia |].
  all: intros file overlay x y opacity out Hin; cbn [In] in Hin.
  all: repeat match goal with
         | Hor : _ \/ _ |- _ => destruct Hor as [Hor | Hor]
         end; try discriminate; try contradiction.
  all: injection Hin as <- <- <- <- <- <-; facts.
  all: repeat (split; [solve [reflexivity | assumption] |]).
  all: do 2 eexists; repeat (split; [eassumption |]); assumption.
Qed.

(** X11.  The success line of a file is printed only after sharp reported
    the composite done: it is then the last effect for the file, right
    after the composite, it names the file, and no error was logged for
    the file. *)
Theorem success_follows_the_composite :
  exists seg,
    processImage w options inputFile tr = (Return tt, tr ++ seg) /\
    forall filename,
      In (ConsoleLog (MsgSuccess filename)) seg ->
      filename = path_basename w inputFile /\
      existsb isError seg = false /\
      exists before overlay x y,
        let out := path_join w (options_output options) filename in
        seg = before
              ++ [CompositeToFile inputFile overlay x y (options_opacity options) out;
                  ConsoleLog (MsgSuccess filename)] /\
        sharp_compositeToFile w (tr ++ before) inputFile overlay x y
          (options_opacity options) out = Success tt.
Proof.
  unfold_program.
  cbn beta iota delta [negb]; repeat (answer; cbn beta iota delta [negb]); tidy.
  all: eexists; split; [reflexivity |].
  all: lazymatch goal with
       | |- forall filename, In (@?e filename) ?seg -> @?P filename =>
           pose (before := firstn (List.length seg - 2) seg)
       end; cbn in before.
  all: intros filename Hin; cbn [In] in Hin.
  all: repeat match goal with
         | Hor : _ \/ _ |- _ => destruct Hor as [Hor | Hor]
         end; try discriminate; try contradiction.
  all: injection Hin as <-; facts.
  all: split; [reflexivity |]; split; [reflexivity |].
  all: exists before; subst before; do 3 eexists; cbn zeta.
  all: split; [reflexivity | assumption].
Qed.

(** X12.  The checks made before decoding, in their order: a file that
    cannot be read, whose [stat] fails, that is not a regular file, or that
    is empty is given up with one error line, and no image was read, built
    or written for it.  A directory of size 0 is reported as not being a
    file. *)
Theorem early_checks_stop_before_decoding :
  (forall message,
     fs_access w (tr ++ [processing]) inputFile = Failure message ->
     processImage w options inputFile tr =
       (Return tt,
        tr ++ [processing; Access inputFile;
               ConsoleError (MsgCannotAccess inputFile message)])) /\
  (forall message,
     fs_access w (tr ++ [processing]) inputFile = Success tt ->
     fs_stat w (tr ++ [processing; Access inputFile]) inputFile = Failure message ->
     processImage w options inputFile tr =
       (Return tt,
        tr ++ [processing; Access inputFile; Stat inputFile;
               ConsoleError (MsgProcessError (path_basename w inputFile) message)])) /\
  (forall stats,
     fs_access w (tr ++ [processing]) inputFile = Success tt ->
     fs_stat w (tr ++ [processing; Access inputFile]) inputFile = Success stats ->
     isFile stats = false ->
     processImage w options inputFile tr =
       (Return tt,
        tr ++ [processing; Access inputFile; Stat inputFile;
               ConsoleError (MsgNotAFile inputFile)])) /\
  (forall stats,
     fs_access w (tr ++ [processing]) inputFile = Success tt ->
     fs_stat w (tr ++ [processing; Access inputFile]) inputFile = Success stats ->
     isFile stats = true -> size stats = 0%Z ->
     processImage w options inputFile tr =
       (Return tt,
        tr ++ [processing; Access inputFile; Stat inputFile;
               ConsoleError (MsgEmpty inputFile)])).
Proof.
  refine (conj _ (conj _ (conj _ _))).
  - intros message Haccess. unfold_program. rewrite Haccess.
    cbn beta iota delta [negb]. norm. reflexivity.
  - intros message Haccess Hstat. unfold_program. rewrite Haccess.
    cbn beta iota delta [negb]. norm. rewrite Hstat.
    cbn beta iota. norm. reflexivity.
  - intros stats Haccess Hstat Hfile. unfold_program. rewrite Haccess.
    cbn beta iota delta [negb]. norm. rewrite Hstat.
    cbn beta iota. rewrite Hfile. cbn beta iota delta [negb]. norm. reflexivity.
  - intros stats Haccess Hstat Hfile Hsize. unfold_program. rewrite Haccess.
    cbn beta iota delta [negb]. norm. rewrite Hstat.
    cbn beta iota. rewrite Hfile, Hsize. cbn beta iota delta [negb Z.eqb].
    norm. reflexivity.
Qed.

End FileSafety.

Lemma early_checks_stop_before_decoding_witness :
  processImage damagedWorld textOptions "/demo/images/sample_green.png" [] =
    (Return tt,
     [ConsoleLog (MsgProcessing "sample_green.png");
      Access "/demo/images/sample_green.png";
      Stat "/demo/images/sample_green.png";
      ConsoleError (MsgEmpty "/demo/images/sample_green.png")]).
Proof.
  destruct (early_checks_stop_before_decoding damagedWorld textOptions
              "/demo/images/sample_green.png" []) as (_ & _ & _ & Hempty).
  apply (Hempty {| isFile := true; size := 0 |}); reflexivity.
Defined.

(** ** The overlay *)



Section OverlayFailure.

Variable w : World.
Variable options : Options.
Variables (inputFile filename outputFile : string) (W H : Z).
Variable tr : Trace.

(** X14.  When the overlay cannot be built the file is given up and
    nothing is measured or composited.  A text that sharp cannot render
    leaves three lines, the message twice and the SVG in between; a
    watermark image that cannot be loaded leaves one. *)
Theorem overlay_failure_gives_up_the_file :
  (forall text message,
     options_text options = Some text -> text <> EmptyString ->
     let layout :=
       textLayout text (watermarkMaxWidth options W) (watermarkMaxHeight options H) in
     let svg := svgOf text layout in
     let info :=
       ConsoleLog (MsgTextInfo text (String.length text) (fontSize layout)
                     (svg_width svg) (svg_height svg)) in
     sharp_renderSvg w (tr ++ [info]) svg = Failure message ->
     watermarkImage w options inputFile filename outputFile W H tr =
       (Return tt,
        tr ++ [info; RenderSvg svg; ConsoleError (MsgSvgError message);
               ConsoleLog (MsgSvgContent svg);
               ConsoleError (MsgTextWatermarkError message)])) /\
  (forall message,
     truthy (options_text options) = false ->
     let width := Qfloor (watermarkMaxWidth options W) in
     sharp_resizeWatermark w tr (options_watermark options) width = Failure message ->
     watermarkImage w options inputFile filename outputFile W H tr =
       (Return tt,
        tr ++ [ResizeWatermark (options_watermark options) width;
               ConsoleError (MsgWatermarkImageError message)])).
Proof.
  split.
  - intros text message Htext Hne layout svg info Hrender.
    subst layout svg info. apply String.eqb_neq in Hne.
    unfold_program. unfold truthy. rewrite Htext, Hne.
    cbn beta iota delta [negb]. rewrite Hrender.
    cbn beta iota. norm. reflexivity.
  - intros message Htext width Hresize. subst width.
    unfold_program. rewrite Htext. cbn beta iota. rewrite Hresize.
    cbn beta iota. norm. reflexivity.
Qed.

End OverlayFailure.

Lemma overlay_failure_gives_up_the_file_witness :
  watermarkImage
    (worldOf true (Success tt) (Success demoImages) (Success tt) regularFile
       (Success [Byte.x01]) (Failure "Input file is missing") (Success tt))
    imageOptions "/demo/images/sample_red.png" "sample_red.png"
    "watermarked/image/sample_red.png" 500 300 [] =
  (Return tt,
   [ResizeWatermark (Some "logo.png") 125;
    ConsoleError (MsgWatermarkImageError "Input file is missing")]).
Proof.
  destruct (overlay_failure_gives_up_the_file
              (worldOf true (Success tt) (Success demoImages) (Success tt)
                 regularFile (Success [Byte.x01])
                 (Failure "Input file is missing") (Success tt))
              imageOptions "/demo/images/sample_red.png" "sample_red.png"
              "watermarked/image/sample_red.png" 500 300 []) as (_ & Himage).
  apply (Himage "Input file is missing"); reflexivity.
Defined.

(** X15.  With a text, the overlay is rendered anew for each source
    image: a run hands an SVG to sharp exactly as many times as it decoded
    images, never for a file it gave up before. *)
Theorem text_overlay_rendered_per_image (w : World) (options : Options) :
  truthy (options_text options) = true ->
  count isRender (snd (run w options)) = count isDecoded (snd (run w options)).
Proof.
  intros Htext. apply run_counts.
  - intros e He. split; [| now apply driver_not_per_file].
    destruct e as [m | m | | | | | | | | | |]; try destruct m;
      try reflexivity; discriminate.
  - intros inputFile tr.
    destruct (truthy_text _ Htext) as (text & Hsome & Hne).
    apply String.eqb_neq in Hne.
    unfold_program. unfold truthy. rewrite Hsome, Hne.
    cbn beta iota delta [negb]; repeat (answer; cbn beta iota delta [negb]); tidy.
    all: eexists; split; reflexivity.
Qed.

Lemma text_overlay_rendered_per_image_witness :
  count isRender (snd (run damagedWorld textOptions)) = 1%nat.
Proof.
  rewrite (text_overlay_rendered_per_image damagedWorld textOptions eq_refl).
  reflexivity.
Defined.

(** ** The demonstration script *)

Lemma demo_count_app (p : Demo.Event -> bool) (a b : Demo.Trace) :
  Demo.count p (a ++ b) = (Demo.count p a + Demo.count p b)%nat.
Proof. unfold Demo.count. now rewrite filter_app, length_app. Qed.

(** X16.  The script generates the sample images and the logo only when
    the images directory is empty: on a host whose images directory is
    never listed empty, no generator runs, whatever else happens (so a
    logo that is missing beside existing images is not made again). *)
Theorem demo_generates_only_into_empty_directory
    (host : Demo.Host) (tr : Demo.Trace) :
  (forall t entries,
     Demo.fs_readdirSync host t (Demo.IMAGES_DIR host) = Success entries ->
     entries <> []) ->
  Demo.count Demo.isCreation (snd (Demo.main host tr))
    = Demo.count Demo.isCreation tr.
Proof.
  intros Hfull. Demo.unfold_script.
  repeat (answer; cbn beta iota); cbn [fst snd]; norm.
  all: try match goal with
         | Hlist : Demo.fs_readdirSync _ _ _ = Success ?l,
           Hlen : (List.length ?l =? 0)%nat = true |- _ =>
             exfalso; apply (Hfull _ _ Hlist);
             apply Nat.eqb_eq in Hlen; now destruct l
         end.
  all: rewrite demo_count_app; cbn; lia.
Qed.

Lemma demo_generates_only_into_empty_directory_witness :
  Demo.count Demo.isCreation
    (snd (Demo.main (Demo.hostWith ["sample_red.png"]) [])) = 0%nat.
Proof.
  apply (demo_generates_only_into_empty_directory
           (Demo.hostWith ["sample_red.png"]) []).
  intros t entries Hlist. injection Hlist as <-. discriminate.
Defined.

(** X17.  The script stops at the first step that fails.  It either
    returns after exactly three runs of the watermarker with no error
    line, or ends with status 1, and then the failing call and its error
    line are the last two effects: nothing runs after a failure, and no
    exception escapes. *)
Theorem demo_stops_at_first_failure (host : Demo.Host) (tr : Demo.Trace) :
  exists seg,
    snd (Demo.main host tr) = tr ++ seg /\
    match fst (Demo.main host tr) with
    | Return _ =>
        Demo.count Demo.isRun seg = 3%nat /\ existsb Demo.isError seg = false
    | Exit code =>
        code = 1%Z /\
        exists before failing message,
          seg = before ++ [failing; Demo.ConsoleError (Demo.MsgError message)] /\
          Demo.isConsole failing = false /\
          existsb Demo.isError before = false
    | Throw _ => False
    end.
Proof.
  Demo.unfold_script.
  cbn beta iota delta [fst snd];
    repeat (answer; cbn beta iota delta [fst snd]); norm.
  all: eexists; split; [reflexivity |].
  all: try (split; reflexivity).
  all: split; [reflexivity |].
  all: lazymatch goal with
       | |- exists before failing message,
              ?seg = @?rhs before failing message /\ @?rest before failing message =>
           exists (firstn (List.length seg - 2) seg)
       end; cbn [firstn List.length Nat.sub].
  all: do 2 eexists; split; [reflexivity | split; reflexivity].
Qed.

(** The second run fails: the third is not started. *)
Example demo_failing_run :
  fst (Demo.main Demo.hostFailingAtLogoRun []) = Exit 1%Z /\
  Demo.count Demo.isRun (snd (Demo.main Demo.hostFailingAtLogoRun [])) = 2%nat.
Proof. split; vm_compute; reflexivity. Qed.
